(** * README generator: the renderer, the question list and the file emitter

    A shallow embedding of the three JavaScript sources of the repository:

    - [GenerateMarkdown]: utils/generateMarkdown.js, the license helpers
      (first part of src/unnamed/part_000);
    - [Index]: src/index.js, the entry script at the root of the repository;
    - [Unnamed]: the second entry script (last part of src/unnamed/part_000).

    JavaScript values are restricted to the two kinds the program meets:
    strings (every answer of the prompt library is one) and [undefined]
    (what destructuring yields for a key the answers object lacks).  Objects
    are finite maps from property names to values.  Code that can throw
    returns a [result]. *)

From Stdlib Require Import Ascii String ZArith.
From stdpp Require Import gmap strings list fin_maps.

(** ** Values, errors, results *)

Inductive value : Type :=
  | VUndefined
  | VStr (s : string).

Inductive error : Type :=
  | ReferenceError (ident : string)   (* "<ident> is not defined" *)
  | TypeError (msg : string)
  | SystemError (code : string).      (* what fs hands to a callback *)

Inductive result (A : Type) : Type :=
  | Ok (a : A)
  | Throw (e : error).
Arguments Ok {A} a.
Arguments Throw {A} e.

Definition bind {A B : Type} (r : result A) (k : A -> result B) : result B :=
  match r with
  | Ok a => k a
  | Throw e => Throw e
  end.

Notation "'let*' x ':=' r 'in' k" := (bind r (fun x => k))
  (at level 10, x name, r at level 100, k at level 200).

(** The line feed that ends every line of the template literals. *)
Definition LF : string := String "010"%char EmptyString.

(** ToString, as a template literal applies it to an interpolated value. *)
Definition to_string (v : value) : string :=
  match v with
  | VUndefined => "undefined"
  | VStr s => s
  end.

(** [v !== w] *)
Definition strict_neq (v w : value) : bool :=
  match v, w with
  | VUndefined, VUndefined => false
  | VStr s, VStr t => negb (String.eqb s t)
  | _, _ => true
  end.

(** Reading property [k] of an object: [undefined] when the key is absent. *)
Definition prop (o : gmap string value) (k : string) : value :=
  default VUndefined (o !! k).

(** ** Template literals

    A template literal is kept line by line, each line a sequence of literal
    text and interpolations, so that the definitions below can be read next
    to the source.  Lines are joined by [LF]; interpolations are evaluated
    from left to right and from top to bottom, as JavaScript does. *)

Inductive piece : Type :=
  | Lit (s : string)             (* literal text *)
  | Ident (x : string)           (* ${x} *)
  | Member (x f : string).       (* ${x.f} *)

(** The scope of the arrow function's body: its destructured parameters.
    The enclosing module scope declares inquirer, fs, generateBadge,
    generateReadme, questions and init; neither template refers to one of
    them, and no other name is declared, so a name that is not a parameter
    is unresolvable. *)
Definition resolve (env : gmap string value) (x : string) : result value :=
  match env !! x with
  | Some v => Ok v
  | None => Throw (ReferenceError x)
  end.

(** [v.f].  Reading a property of [undefined] throws; a string has none of
    the named properties the templates read (description, installation,
    usage, license, credits). *)
Definition get_prop (v : value) (f : string) : result value :=
  match v with
  | VUndefined =>
      Throw (TypeError ("Cannot read properties of undefined (reading '" +:+ f +:+ "')"))
  | VStr _ => Ok VUndefined
  end.

Definition eval_piece (env : gmap string value) (p : piece) : result string :=
  match p with
  | Lit s => Ok s
  | Ident x => let* v := resolve env x in Ok (to_string v)
  | Member x f => let* v := resolve env x in let* w := get_prop v f in Ok (to_string w)
  end.

Fixpoint eval_line (env : gmap string value) (l : list piece) : result string :=
  match l with
  | [] => Ok EmptyString
  | p :: l' => let* s := eval_piece env p in let* r := eval_line env l' in Ok (s +:+ r)
  end.

Fixpoint eval_lines (env : gmap string value) (ls : list (list piece)) : result string :=
  match ls with
  | [] => Ok EmptyString
  | l :: ls' =>
      match ls' with
      | [] => eval_line env l
      | _ => let* s := eval_line env l in let* r := eval_lines env ls' in Ok (s +:+ LF +:+ r)
      end
  end.

(** Object destructuring in a parameter list, [({x1, ..., xn}) => ...]:
    every listed name is bound, to [undefined] when the argument lacks it. *)
Definition bind_names (names : list string) (f : string -> value) : gmap string value :=
  foldr (fun x env => <[x := f x]> env) ∅ names.

Definition destructure (names : list string) (o : gmap string value) : gmap string value :=
  bind_names names (prop o).

(** ** utils/generateMarkdown.js *)

Module GenerateMarkdown.

Definition renderLicenseBadge (license : value) : string :=
  if strict_neq license (VStr "") then
    to_string license +:+ "![Crates.io](https://img.shields.io/crates/l/rustc-serialize/0.3.24)"
  else "".

Definition renderLicenseLink (license : value) : string :=
  if strict_neq license (VStr "") then
    "![Crates.io](https://img.shields.io/crates/l/rustc-serialize/0.3.24) " +:+ to_string license
  else "".

Definition renderLicenseSection (license : value) : string :=
  if strict_neq license (VStr "") then to_string license else "".

(** The function the module exports; [data] is an object. *)
Definition generateMarkdown (data : gmap string value) : string :=
  "# " +:+ to_string (prop data "title").

End GenerateMarkdown.

(** ** The question lists *)

Record question : Type := Question {
  type : string;
  message : string;
  choices : list string;
  name : string
}.

(** The parameter list shared by both [generateReadme] functions. *)
Definition params : list string :=
  ["title"; "description"; "installation"; "usage"; "credits"; "tests";
   "license"; "username"; "email"].

(** ** src/index.js *)

Module Index.

Definition template : list (list piece) :=
  [ [Lit "# "; Ident "title"];
    [];
    [Lit "## Description"];
    [Ident "description"];
    [];
    [Lit "## Table of Contents"];
    [Lit "-Description "; Member "data" "description"];
    [Lit "-Installation"; Member "data" "installation"];
    [Lit "-Usage"; Member "data" "usage"];
    [Lit "-License"; Member "data" "license"];
    [Lit "-Credits"; Member "data" "credits"];
    [];
    [];
    [Lit "## Installation"];
    [Ident "installation"];
    [];
    [Lit "## Usage"];
    [Ident "usage"];
    [];
    [Lit "## License"];
    [Ident "license"];
    [];
    [Lit "## Contributing"];
    [Ident "credits"];
    [];
    [Lit "## Tests"];
    [Ident "tests"];
    [];
    [Lit "##Questions"];
    [Lit "Here is a link to my GitHub profile "; Ident "username"; Lit "."];
    [Lit "If you have any questions or would like to contribute to this  project you can email me at ";
     Ident "email"; Lit "."];
    [] ].

Definition generateReadme (answers : gmap string value) : result string :=
  eval_lines (destructure params answers) template.

Definition questions : list question :=
  [ Question "Input" "What is your project title?" [] "title";
    Question "list" "Choose license" ["Apache-2.0"; "MIT"; "BSD"; "GPL"] "license";
    Question "Input" "What is your project description" [] "description";
    Question "Input" "What is your project installation instructions?" [] "installation";
    Question "Input" "What is your project usage information?" [] "usage";
    Question "Input" "What is your project contribution guidelines?" [] "contribution";
    Question "Input" "What is your project test instructions?" [] "tests";
    Question "Input" "GitHub username?" [] "username";
    Question "input" "email address" [] "email" ].

End Index.

(** ** The second entry script (src/unnamed/part_000) *)

Module Unnamed.

Definition template : list (list piece) :=
  [ [Lit "# "; Ident "title"];
    [];
    [Lit "## Description"];
    [Lit "    "; Ident "description"];
    [];
    [Lit "## Table of Contents"];
    [Lit "*[Description](#description) "];
    [Lit "*[Installation](#installation)"];
    [Lit "*[Usage](#usage)"];
    [Lit "*[License](#license)"];
    [Lit "*[Credits](#credits)"];
    [Lit "*[Tests](#tests)"];
    [Lit "*[Questions] (#questions)"];
    [];
    [];
    [Lit "## Installation"];
    [Lit "    "; Ident "installation"];
    [];
    [Lit "## Usage"];
    [Lit "    "; Ident "usage"];
    [];
    [Lit "## License"];
    [Lit "    "; Ident "license"];
    [];
    [Lit "## Contributing"];
    [Lit "    "; Ident "credits"];
    [];
    [Lit "## Tests"];
    [Lit "    "; Ident "tests"];
    [];
    [Lit "##Questions"];
    [];
    [Lit "Here is a link to my GitHub profile "; Ident "username"; Lit "."];
    [Lit "If you have any questions or would like to contribute to this  project you can email me at ";
     Ident "email"; Lit "."];
    [] ].

Definition generateReadme (answers : gmap string value) : result string :=
  eval_lines (destructure params answers) template.

Definition questions : list question :=
  [ Question "Input" "What is your project title?" [] "title";
    Question "list" "Choose license" ["MIT/Apache-2.0"; "MIT"; "BSD"; "GPL"] "license";
    Question "Input" "Project description" [] "description";
    Question "Input" "What installations did you use for your project?" [] "installation";
    Question "Input" "Provide instructions and examples for use?" [] "usage";
    Question "Input" "Who contributed to this project?" [] "contribution";
    Question "Input" "What is your project test instructions?" [] "tests";
    Question "Input" "GitHub username?" [] "username";
    Question "input" "email address" [] "email" ].

End Unnamed.

(** ** The prompt library (external collaborator)

    inquirer is not part of the repository.  Its contract, as the program
    relies on it: [prompt] asks the questions in array order and resolves
    with an object that stores each answer under the question's [name].  A
    question of type list resolves to the choice under the cursor; every
    other type met here (Input, input) resolves to the line typed. *)

Record reply : Type := Reply {
  typed : string;    (* the line the operator types *)
  cursor : nat       (* how far the operator moves down a list, wrapping *)
}.

(** What the operator does at the i-th question. *)
Definition operator : Type := nat -> reply.

Definition answer_of (q : question) (r : reply) : string :=
  if String.eqb (type q) "list"
  then nth (cursor r `mod` length (choices q)) (choices q) EmptyString
  else typed r.

Fixpoint prompt_from (i : nat) (qs : list question) (op : operator)
    (answers : gmap string value) : gmap string value :=
  match qs with
  | [] => answers
  | q :: qs' => prompt_from (S i) qs' op (<[name q := VStr (answer_of q (op i))]> answers)
  end.

Definition prompt (qs : list question) (op : operator) : gmap string value :=
  prompt_from 0 qs op ∅.

(** ** The file emitter

    The world the program acts on: the files of the current working
    directory, the console, the calls made to fs.writeFile, the process exit
    code, and the rejections no handler caught.  [write_fault] is the
    environment's part: the error the next write will meet, if any. *)

Inductive logged : Type :=
  | LogText (s : string)
  | LogError (e : error).

Record world : Type := World {
  files : gmap string string;
  console : list logged;
  fs_writes : list (string * string);
  exitCode : option Z;
  unhandled : list error;
  write_fault : option error
}.

Definition console_log (x : logged) (w : world) : world :=
  World (files w) (console w ++ [x]) (fs_writes w) (exitCode w) (unhandled w) (write_fault w).

(** A rejection no handler catches: Node (15 and later) ends the process
    with status 1. *)
Definition reject (e : error) (w : world) : world :=
  World (files w) (console w) (fs_writes w) (Some 1%Z) (unhandled w ++ [e]) (write_fault w).

(** fs.writeFile(path, data, callback): replaces the file on success and
    hands the callback [null]; hands it the error otherwise. *)
Definition writeFile (path data : string) (callback : option error -> world -> world)
    (w : world) : world :=
  let w1 := World (files w) (console w) (fs_writes w ++ [(path, data)]) (exitCode w)
                  (unhandled w) (write_fault w) in
  match write_fault w with
  | None =>
      callback None
        (World (<[path := data]> (files w1)) (console w1) (fs_writes w1) (exitCode w1)
               (unhandled w1) (write_fault w1))
  | Some err => callback (Some err) w1
  end.

Section Init.

(** [questions] is the module-level array the function closes over. *)
Variable questions : list question.

(** An exception in the [then] callback rejects the promise it returns;
    nothing handles that rejection. *)
Definition init (generateReadme : gmap string value -> result string)
    (op : operator) (w : world) : world :=
  let answers := prompt questions op in
  match generateReadme answers with
  | Ok newReadMe =>
      writeFile "README.md" newReadMe
        (fun err => match err with
                    | Some e => console_log (LogError e)
                    | None => console_log (LogText "Successfully written Readme!")
                    end) w
  | Throw e => reject e w
  end.

End Init.

(** The call at the end of each script: [init(generateReadme)]. *)
Definition Index_main : operator -> world -> world :=
  init Index.questions Index.generateReadme.

Definition Unnamed_main : operator -> world -> world :=
  init Unnamed.questions Unnamed.generateReadme.

(** ** Reading a rendered document *)

(** [s.startsWith(pre)] *)
Fixpoint starts_with (s pre : string) : bool :=
  match pre, s with
  | EmptyString, _ => true
  | String c pre', String d s' => Ascii.eqb c d && starts_with s' pre'
  | String _ _, EmptyString => false
  end.

(** [s.includes(sub)] *)
Fixpoint includes (s sub : string) : bool :=
  starts_with s sub ||
  match s with
  | EmptyString => false
  | String _ s' => includes s' sub
  end.

(** No line feed occurs in [s]. *)
Fixpoint single_line (s : string) : bool :=
  match s with
  | EmptyString => true
  | String c s' => negb (Ascii.eqb c "010") && single_line s'
  end.

(** [s.split(LF)], with the line being read carried in [cur]. *)
Fixpoint split_lines (cur s : string) : list string :=
  match s with
  | EmptyString => [cur]
  | String c s' =>
      if Ascii.eqb c "010" then cur :: split_lines EmptyString s'
      else split_lines (cur +:+ String c EmptyString) s'
  end.

Definition lines (s : string) : list string := split_lines EmptyString s.

(** A section heading line: the marker of a second-level heading. *)
Definition is_heading (l : string) : bool := starts_with l "##".

Definition headings (doc : string) : list string := List.filter is_heading (lines doc).

(** The lines under the first line equal to [h], up to the next heading. *)
Fixpoint take_body (ls : list string) : list string :=
  match ls with
  | [] => []
  | l :: ls' => if is_heading l then [] else l :: take_body ls'
  end.

Fixpoint section_body (h : string) (ls : list string) : list string :=
  match ls with
  | [] => []
  | l :: ls' => if String.eqb l h then take_body ls' else section_body h ls'
  end.

(** The badge image both license helpers embed. *)
Definition crates_badge : string :=
  "![Crates.io](https://img.shields.io/crates/l/rustc-serialize/0.3.24)".

(** Every field the renderer reads is a single line (what a prompt that
    reads one line per question delivers). *)
Definition single_line_fields (answers : gmap string value) : bool :=
  forallb (fun x => single_line (to_string (prop answers x))) params.

(** The lines of a template, each evaluated on its own. *)
Fixpoint eval_each (env : gmap string value) (ls : list (list piece)) : result (list string) :=
  match ls with
  | [] => Ok []
  | l :: ls' => let* s := eval_line env l in let* r := eval_each env ls' in Ok (s :: r)
  end.

(** The names a template reads from the scope it is evaluated in. *)
Definition piece_idents (p : piece) : list string :=
  match p with
  | Lit _ => []
  | Ident x => [x]
  | Member x _ => [x]
  end.

Definition template_idents (ls : list (list piece)) : list string :=
  flat_map (flat_map piece_idents) ls.

(** ** Sample inputs *)

Definition demo : gmap string value :=
  list_to_map
    [ ("title", VStr "Demo"); ("description", VStr "A demo."); ("installation", VStr "npm install");
      ("usage", VStr "run it"); ("contribution", VStr "Jane"); ("tests", VStr "none");
      ("license", VStr "MIT"); ("username", VStr "janedoe"); ("email", VStr "jane@example.com") ].

(** The scope of a call on [demo] made where other names are bound too. *)
Definition demo_wider_scope : gmap string value :=
  <["inquirer" := VStr "[object Object]"]> (<["answers" := VUndefined]> (destructure params demo)).

Definition demo_unlicensed : gmap string value := <["license" := VStr ""]> demo.

Definition demo_two_lines : gmap string value :=
  <["description" := VStr ("A demo." +:+ LF +:+ "## Extra")]> demo.

Definition demo_operator : operator :=
  fun i => Reply (nth i ["Demo"; ""; "A demo."; "npm install"; "run it"; "Jane"; "none";
                         "janedoe"; "jane@example.com"] EmptyString) 1.

(** The same operator, with another answer to the contribution question. *)
Definition demo_operator_alone : operator :=
  fun i => if Nat.eqb i 5 then Reply "nobody" 0 else demo_operator i.

Definition empty_world : world := World ∅ [] [] None [] None.

Definition readonly_world : world := World ∅ [] [] None [] (Some (SystemError "EACCES")).

(** ** node_modules/inquisitor: the question-flow helper

    [ask] reduces an array of inquiries with bluebird's reduce: a string
    names a question of the manifest, an array is a group asked into an
    object of its own, an object is a pivot whose answer selects the
    questions that follow.

    The promises are run in sequence and nothing else holds the results
    object while it is filled, so the reduction is modelled by passing the
    results along, together with the list of the names put to the prompter
    so far.  A prompter is taken to resolve: it maps the turn and the name of
    the question to the answer.  Objects are plain objects, seen through
    their own properties. *)

Module Inquisitor.

(** A property of a pivot object: missing, there with a value of the wrong
    kind (not a string for question, not a function for logic), or there
    with a value of the expected kind. *)
Inductive field (T : Type) : Type :=
  | Absent
  | Invalid
  | Valid (x : T).
Arguments Absent {T}.
Arguments Invalid {T}.
Arguments Valid {T} x.

Inductive failure : Type :=
  | Failure (msg : string)    (* new Error(msg) *)
  | NotCallable.              (* the TypeError of calling what is no function *)

(** A call either returns or throws before it returns. *)
Inductive sync (X : Type) : Type :=
  | Returns (x : X)
  | Throws (msg : string).
Arguments Returns {X} x.
Arguments Throws {X} msg.

(** A settled promise, with the names the prompter was called for. *)
Inductive promise (X : Type) : Type :=
  | Resolved (x : X) (asked : list string)
  | Rejected (e : failure) (asked : list string).
Arguments Resolved {X} x asked.
Arguments Rejected {X} e asked.

(** The double quote of the error messages. *)
Definition quote : string := String "034"%char EmptyString.

Section Answers.

(** What a prompter resolves with. *)
Context {A : Type}.

Definition prompter_fn : Type := nat -> string -> A.

#[local] Unset Elimination Schemes.

(** The values the constructor's argument is made of: the falsy values, the
    other primitives, functions (without properties of their own) and
    objects. *)
Inductive jsval : Type :=
  | Falsy
  | Truthy
  | Function (p : prompter_fn)
  | Object (fields : gmap string jsval).

(** What a results object holds under a key: an answer, or the results of a
    group or of a pivot. *)
Inductive answers : Type :=
  | Answer (a : A)
  | Nested (fields : gmap string answers).

(** An entry of the array given to [ask].  [IOther] is a number, a boolean,
    null or undefined, kept as the text Array.prototype.join gives it.  The
    logic of a pivot returns an array. *)
Inductive inquiry : Type :=
  | IString (name : string)
  | IArray (items : list inquiry)
  | IPivot (question : field string) (logic : field (A -> list inquiry))
  | IOther (text : string).

#[local] Set Elimination Schemes.

Definition truthy (v : jsval) : bool :=
  match v with
  | Falsy => false
  | _ => true
  end.

(** _.isObject *)
Definition isObject (v : jsval) : bool :=
  match v with
  | Function _ | Object _ => true
  | _ => false
  end.

(** [v[k]] *)
Definition get (v : jsval) (k : string) : jsval :=
  match v with
  | Object fields => default Falsy (fields !! k)
  | _ => Falsy
  end.

(** _.has(v, k) *)
Definition has (v : jsval) (k : string) : bool :=
  match v with
  | Object fields => bool_decide (is_Some (fields !! k))
  | _ => false
  end.

(** Object.keys(v).length *)
Definition keys_length (v : jsval) : nat :=
  match v with
  | Object fields => size fields
  | _ => 0
  end.

Record instance : Type := Instance {
  prompter : prompter_fn;
  manifest : jsval
}.

(** [o[k] = v] on a plain object: assigning to __proto__ creates no
    property. *)
Definition set_prop (o : gmap string answers) (k : string) (v : answers) : gmap string answers :=
  if String.eqb k "__proto__" then o else <[k := v]> o.

(** lib/prompter.js, the prompter used when none is passed. *)
Variable default_prompter : prompter_fn.

Definition Inquisitor (opts : jsval) : sync instance :=
  let opts := if truthy opts then opts else Object ∅ in
  let this_prompter :=
    match get opts "prompter" with
    | Function p => p
    | _ => default_prompter
    end in
  let this_manifest :=
    if truthy (get opts "manifest") then get opts "manifest"
    else if truthy (get opts "prompter") then Object ∅
    else opts in
  if negb (isObject this_manifest) || Nat.eqb (keys_length this_manifest) 0
  then Throws "An invalid manifest was supplied"
  else Returns (Instance this_prompter this_manifest).

(** String(i), the key an array is stored under. *)
Fixpoint text (i : inquiry) : string :=
  match i with
  | IString name => name
  | IArray items => String.concat "," (map text items)
  | IPivot _ _ => "[object Object]"
  | IOther t => t
  end.

(** bPromise.reduce(l, fn, acc): the first rejection ends the reduction. *)
Definition reduce {X : Type}
    (fn : gmap string answers -> X -> list string -> promise (gmap string answers)) :=
  fix go (l : list X) (acc : gmap string answers) (asked : list string) :=
    match l with
    | [] => Resolved acc asked
    | x :: l' =>
        match fn acc x asked with
        | Resolved acc' asked' => go l' acc' asked'
        | Rejected e asked' => Rejected e asked'
        end
    end.

(** [p.then(k)] for a callback that does not throw. *)
Definition then_ {X Y : Type} (p : promise X) (k : X -> Y) : promise Y :=
  match p with
  | Resolved x asked => Resolved (k x) asked
  | Rejected e asked => Rejected e asked
  end.

Variable this : instance.

(** [_.has(this.manifest, name) && _.isObject(this.manifest[name])] *)
Definition in_manifest (name : string) : bool :=
  has (manifest this) name && isObject (get (manifest this) name).

Definition not_found (name : string) : failure :=
  Failure ("Question " +:+ quote +:+ name +:+ quote +:+ " not found in the manifest").

Definition _performStringInquiry (results : gmap string answers) (questionName : string)
    (asked : list string) : promise (gmap string answers) :=
  if negb (in_manifest questionName) then Rejected (not_found questionName) asked
  else
    let answer := prompter this (length asked) questionName in
    Resolved (set_prop results questionName (Answer answer)) (asked ++ [questionName]).

Definition _performArrayInquiry
    (reducer : gmap string answers -> inquiry -> list string -> promise (gmap string answers))
    (results : gmap string answers) (questions : list inquiry) (asked : list string)
    : promise (gmap string answers) :=
  then_ (reduce reducer questions ∅ asked)
        (fun answers => set_prop results (text (IArray questions)) (Nested answers)).

(** The third check of the source joins its two conditions with [&&]: only
    a pivot without a logic key is refused there.  A logic that is no
    function is called after the question has been asked. *)
Definition _performPivotInquiry
    (reducer : gmap string answers -> inquiry -> list string -> promise (gmap string answers))
    (results : gmap string answers)
    (question : field string) (logic : field (A -> list inquiry)) (asked : list string)
    : promise (gmap string answers) :=
  match question with
  | Valid q =>
      if negb (in_manifest q) then Rejected (not_found q) asked
      else
        match logic with
        | Absent =>
            Rejected (Failure ("Pivot does not contain a valid " +:+ quote +:+ "logic" +:+ quote
                               +:+ " method")) asked
        | Invalid => Rejected NotCallable (asked ++ [q])
        | Valid f =>
            let primaryAnswer := prompter this (length asked) q in
            then_ (reduce reducer (f primaryAnswer) {[ "_answer" := Answer primaryAnswer ]}
                          (asked ++ [q]))
                  (fun answers => set_prop results q (Nested answers))
        end
  | _ =>
      Rejected (Failure ("Pivot does not contain a valid " +:+ quote +:+ "question" +:+ quote
                         +:+ " property")) asked
  end.

Fixpoint _reduceInquiries (results : gmap string answers) (inquiries : inquiry)
    (asked : list string) {struct inquiries} : promise (gmap string answers) :=
  match inquiries with
  | IString name => _performStringInquiry results name asked
  | IArray items => _performArrayInquiry _reduceInquiries results items asked
  | IPivot question logic => _performPivotInquiry _reduceInquiries results question logic asked
  | IOther _ => Resolved results asked
  end.

(** [questions || []] must be an array with an entry, or [ask] throws. *)
Definition ask (questions : inquiry) : sync (promise (gmap string answers)) :=
  match questions with
  | IArray (q :: qs) => Returns (reduce _reduceInquiries (q :: qs) ∅ [])
  | _ => Throws "No questions were found"
  end.

(** The names the prompter was called for when the promise settled. *)
Definition trace {X : Type} (p : promise X) : list string :=
  match p with
  | Resolved _ asked => asked
  | Rejected _ asked => asked
  end.

Definition is_other (i : inquiry) : bool :=
  match i with
  | IOther _ => true
  | _ => false
  end.

End Answers.

End Inquisitor.

(** ** Sample inputs of the question-flow helper *)

Definition echo_prompter : nat -> string -> string := fun _ name => name +:+ "!".

Definition demo_manifest : gmap string (@Inquisitor.jsval string) :=
  {[ "pet" := Inquisitor.Object ∅; "name" := Inquisitor.Object ∅;
     "age" := Inquisitor.Object ∅ ]}.

Definition demo_inquisitor : @Inquisitor.instance string :=
  Inquisitor.Instance echo_prompter (Inquisitor.Object demo_manifest).

Definition demo_logic (answer : string) : list (@Inquisitor.inquiry string) :=
  if String.eqb answer "pet!" then [Inquisitor.IString "name"] else [Inquisitor.IString "age"].

(** * Facts *)

(** ** Strings *)

Lemma starts_with_empty (s : string) : starts_with s "" = true.
Proof. destruct s; reflexivity. Qed.

Lemma append_cons (c : ascii) (s t : string) : String c s +:+ t = String c (s +:+ t).
Proof. reflexivity. Qed.

Lemma append_assoc (s t u : string) : (s +:+ t) +:+ u = s +:+ (t +:+ u).
Proof.
  induction s as [|c s IH]; [reflexivity|].
  rewrite !append_cons, IH. reflexivity.
Qed.

Lemma append_empty_r (s : string) : s +:+ "" = s.
Proof.
  induction s as [|c s IH]; [reflexivity|].
  rewrite append_cons, IH. reflexivity.
Qed.

Lemma starts_with_app (pre r : string) : starts_with (pre +:+ r) pre = true.
Proof.
  induction pre as [|c pre IH]; [apply starts_with_empty|].
  rewrite append_cons. cbn [starts_with].
  rewrite Ascii.eqb_refl. exact IH.
Qed.

Lemma includes_here (s sub : string) : starts_with s sub = true -> includes s sub = true.
Proof. intros H. destruct s; cbn [includes]; rewrite H; reflexivity. Qed.

Lemma includes_cons (c : ascii) (s sub : string) :
  includes s sub = true -> includes (String c s) sub = true.
Proof. intros H. cbn [includes]. rewrite H. apply orb_true_r. Qed.

Lemma includes_app_r (s r sub : string) :
  includes r sub = true -> includes (s +:+ r) sub = true.
Proof.
  intros H. induction s as [|c s IH]; [exact H|].
  rewrite append_cons. apply includes_cons, IH.
Qed.

Lemma includes_app_l (s r : string) : includes (s +:+ r) s = true.
Proof. apply includes_here, starts_with_app. Qed.

Lemma includes_self (s : string) : includes s s = true.
Proof. rewrite <- (append_empty_r s) at 1. apply includes_app_l. Qed.

Lemma single_line_app (s t : string) :
  single_line (s +:+ t) = single_line s && single_line t.
Proof.
  induction s as [|c s IH]; [reflexivity|].
  rewrite append_cons. cbn [single_line]. rewrite IH. apply andb_assoc.
Qed.

(** ** Lines *)

Lemma split_lines_app (s : string) : forall cur r,
  single_line s = true -> split_lines cur (s +:+ r) = split_lines (cur +:+ s) r.
Proof.
  induction s as [|c s IH]; intros cur r H.
  - now rewrite append_empty_r.
  - rewrite append_cons. cbn [split_lines single_line] in *.
    apply andb_true_iff in H as [Hc Hs].
    apply negb_true_iff in Hc. rewrite Hc.
    rewrite (IH _ _ Hs). f_equal. apply append_assoc.
Qed.

Lemma split_lines_concat (strs : list string) : forall cur s,
  Forall (fun l => single_line l = true) (s :: strs) ->
  split_lines cur (String.concat LF (s :: strs)) = (cur +:+ s) :: strs.
Proof.
  induction strs as [|t strs IH]; intros cur s H.
  - inversion_clear H as [|? ? Hs _]. cbn [String.concat].
    rewrite <- (append_empty_r s) at 1. rewrite (split_lines_app _ _ _ Hs). reflexivity.
  - inversion_clear H as [|? ? Hs Hrest].
    change (String.concat LF (s :: t :: strs)) with (s +:+ LF +:+ String.concat LF (t :: strs)).
    rewrite (split_lines_app _ _ _ Hs).
    change (LF +:+ String.concat LF (t :: strs))
      with (String "010" (String.concat LF (t :: strs))).
    cbn [split_lines]. rewrite Ascii.eqb_refl.
    rewrite (IH _ _ Hrest). reflexivity.
Qed.

Lemma lines_concat (s : string) (strs : list string) :
  Forall (fun l => single_line l = true) (s :: strs) ->
  lines (String.concat LF (s :: strs)) = s :: strs.
Proof. intros H. unfold lines. now rewrite (split_lines_concat _ _ _ H). Qed.

(** ** Template evaluation *)

Lemma eval_lines_each (env : gmap string value) (ls : list (list piece)) :
  eval_lines env ls = let* strs := eval_each env ls in Ok (String.concat LF strs).
Proof.
  induction ls as [|l ls IH]; [reflexivity|].
  cbn [eval_lines eval_each]. destruct ls as [|l' ls].
  - destruct (eval_line env l); reflexivity.
  - rewrite IH. destruct (eval_line env l) as [s|e]; [|reflexivity].
    cbn [bind]. destruct (eval_each env (l' :: ls)) as [strs|e] eqn:E; [|reflexivity].
    cbn [bind]. destruct strs as [|t strs]; [|reflexivity].
    exfalso. revert E. cbn [eval_each].
    destruct (eval_line env l'); cbn [bind]; [|discriminate].
    destruct (eval_each env ls); cbn [bind]; discriminate.
Qed.

(** The environment of a parameter list binds exactly its names. *)
Lemma bind_names_lookup (names : list string) (f : string -> value) (x : string) :
  bind_names names f !! x = if decide (x ∈ names) then Some (f x) else None.
Proof.
  induction names as [|y names IH]; cbn [bind_names foldr].
  - rewrite lookup_empty. case_decide as H; [|reflexivity]. now apply elem_of_nil in H.
  - fold (bind_names names f). destruct (decide (y = x)) as [->|Hne].
    + rewrite lookup_insert_eq. rewrite decide_True; [reflexivity | apply list_elem_of_here].
    + rewrite lookup_insert_ne by exact Hne. rewrite IH.
      destruct (decide (x ∈ names)) as [Hin|Hnin].
      * rewrite decide_True; [reflexivity | now apply list_elem_of_further].
      * rewrite decide_False; [reflexivity|].
        intros [Heq|Hin]%elem_of_cons; [now apply Hne | now apply Hnin].
Qed.

(** The environment depends on the argument through the listed names only. *)
Lemma bind_names_ext (names : list string) (f g : string -> value) :
  Forall (fun x => f x = g x) names -> bind_names names f = bind_names names g.
Proof.
  induction 1 as [|x names Hx _ IH]; [reflexivity|].
  cbn [bind_names foldr]. fold (bind_names names f) (bind_names names g).
  now rewrite Hx, IH.
Qed.

(** src/index.js: whatever the parameters are bound to, evaluation stops at
    the first interpolation of the table of contents, where [data] is not
    in scope. *)
Lemma Index_template_throws (f : string -> value) :
  eval_lines (bind_names params f) Index.template = Throw (ReferenceError "data").
Proof. vm_compute. reflexivity. Qed.

(** The second script: every interpolation is a parameter, so each line of
    the template evaluates, to the text below. *)
Lemma Unnamed_template_lines (f : string -> value) :
  eval_each (bind_names params f) Unnamed.template =
  Ok [ "# " +:+ to_string (f "title");
       "";
       "## Description";
       "    " +:+ to_string (f "description");
       "";
       "## Table of Contents";
       "*[Description](#description) ";
       "*[Installation](#installation)";
       "*[Usage](#usage)";
       "*[License](#license)";
       "*[Credits](#credits)";
       "*[Tests](#tests)";
       "*[Questions] (#questions)";
       "";
       "";
       "## Installation";
       "    " +:+ to_string (f "installation");
       "";
       "## Usage";
       "    " +:+ to_string (f "usage");
       "";
       "## License";
       "    " +:+ to_string (f "license");
       "";
       "## Contributing";
       "    " +:+ to_string (f "credits");
       "";
       "## Tests";
       "    " +:+ to_string (f "tests");
       "";
       "##Questions";
       "";
       "Here is a link to my GitHub profile " +:+ to_string (f "username") +:+ ".";
       "If you have any questions or would like to contribute to this  project you can email me at "
         +:+ to_string (f "email") +:+ ".";
       "" ].
Proof.
  assert (E : forall s : string, s +:+ "" = s) by apply append_empty_r.
  vm_compute. vm_compute in E. rewrite !E. reflexivity.
Qed.


(** Exposes the rendered document of the second script as the join of its
    evaluated lines. *)
Ltac render_unnamed :=
  unfold Unnamed.generateReadme, destructure;
  rewrite eval_lines_each, Unnamed_template_lines; cbn [bind].

(** Looks for the place where a document carries a given text. *)
Ltac find_text :=
  repeat first [ apply includes_here; reflexivity | apply includes_app_r ].

Lemma Index_generateReadme_throws (answers : gmap string value) :
  Index.generateReadme answers = Throw (ReferenceError "data").
Proof. unfold Index.generateReadme, destructure. apply Index_template_throws. Qed.

Lemma Unnamed_generateReadme_returns (answers : gmap string value) :
  exists doc, Unnamed.generateReadme answers = Ok doc.
Proof. render_unnamed. eexists. reflexivity. Qed.

(** Both renderers read their argument through the nine parameters only. *)
Lemma generateReadme_reads_params (a b : gmap string value) :
  Forall (fun x => prop a x = prop b x) params ->
  Index.generateReadme a = Index.generateReadme b /\
  Unnamed.generateReadme a = Unnamed.generateReadme b.
Proof.
  intros H. unfold Index.generateReadme, Unnamed.generateReadme, destructure.
  now rewrite (bind_names_ext _ _ _ H).
Qed.

(** ** The prompt *)

Lemma prompt_from_dom (qs : list question) (op : operator) :
  forall i (acc : gmap string value),
    dom (prompt_from i qs op acc) = list_to_set (name <$> qs) ∪ dom acc.
Proof.
  induction qs as [|q qs IH]; intros i acc; cbn [prompt_from].
  - cbn. now rewrite union_empty_l_L.
  - rewrite IH, dom_insert_L, fmap_cons, list_to_set_cons.
    rewrite (comm_L (∪) {[name q]} (list_to_set (name <$> qs))).
    apply (assoc_L (∪)).
Qed.

Lemma prompt_dom (qs : list question) (op : operator) :
  dom (prompt qs op) = list_to_set (name <$> qs).
Proof. unfold prompt. now rewrite prompt_from_dom, dom_empty_L, union_empty_r_L. Qed.

(** A key no question is named after is absent from the answers. *)
Lemma prompt_missing_key (qs : list question) (op : operator) (k : string) :
  k ∉ name <$> qs -> prop (prompt qs op) k = VUndefined.
Proof.
  intros H. unfold prop.
  assert (prompt qs op !! k = None) as ->; [|reflexivity].
  apply not_elem_of_dom. rewrite prompt_dom. now rewrite elem_of_list_to_set.
Qed.


(** ** The license helpers *)

Lemma strict_neq_nonempty (L : string) : L <> "" -> strict_neq (VStr L) (VStr "") = true.
Proof.
  intros H. cbn [strict_neq]. apply negb_true_iff, String.eqb_neq. exact H.
Qed.

(** C3. For a non-empty license L, renderLicenseBadge(L) and
    renderLicenseLink(L) are non-empty, contain L, and contain the badge
    image; for the empty string both return the empty string. *)
Theorem license_badge_and_link_contain_license (L : string) (HL : L <> "") :
  (GenerateMarkdown.renderLicenseBadge (VStr L) <> "" /\
   includes (GenerateMarkdown.renderLicenseBadge (VStr L)) L = true /\
   includes (GenerateMarkdown.renderLicenseBadge (VStr L)) crates_badge = true) /\
  (GenerateMarkdown.renderLicenseLink (VStr L) <> "" /\
   includes (GenerateMarkdown.renderLicenseLink (VStr L)) L = true /\
   includes (GenerateMarkdown.renderLicenseLink (VStr L)) crates_badge = true) /\
  GenerateMarkdown.renderLicenseBadge (VStr "") = "" /\
  GenerateMarkdown.renderLicenseLink (VStr "") = "".
Proof.
  unfold GenerateMarkdown.renderLicenseBadge, GenerateMarkdown.renderLicenseLink.
  rewrite (strict_neq_nonempty L HL). cbn [to_string].
  split; [|split; [|split; reflexivity]]; (split; [|split]).
  - destruct L as [|c L]; [contradiction | discriminate].
  - apply includes_app_l.
  - apply includes_app_r, includes_self.
  - discriminate.
  - apply includes_app_r, includes_self.
  - apply (includes_app_l crates_badge (" " +:+ L)).
Qed.

Lemma license_badge_and_link_contain_license_MIT :
  "MIT" <> "" /\
  includes (GenerateMarkdown.renderLicenseBadge (VStr "MIT")) "MIT" = true /\
  includes (GenerateMarkdown.renderLicenseLink (VStr "MIT")) "MIT" = true.
Proof.
  assert (H : "MIT" <> "") by discriminate.
  pose proof (license_badge_and_link_contain_license "MIT" H) as [(_ & Hb & _) [(_ & Hl & _) _]].
  exact (conj H (conj Hb Hl)).
Defined.

(** C4. renderLicenseSection of the empty string is the empty string, and
    of a non-empty license L it is exactly L. *)
Theorem license_section_verbatim (L : string) (HL : L <> "") :
  GenerateMarkdown.renderLicenseSection (VStr L) = L /\
  GenerateMarkdown.renderLicenseSection (VStr "") = "".
Proof.
  unfold GenerateMarkdown.renderLicenseSection.
  rewrite (strict_neq_nonempty L HL). split; reflexivity.
Qed.

Lemma license_section_verbatim_GPL :
  "GPL" <> "" /\ GenerateMarkdown.renderLicenseSection (VStr "GPL") = "GPL".
Proof.
  assert (H : "GPL" <> "") by discriminate.
  exact (conj H (proj1 (license_section_verbatim "GPL" H))).
Defined.

(** C10. For a non-empty license L the two helpers embed the same constant
    badge image: the badge is L followed by it, the link is it, a space and
    L.  The image does not depend on L. *)
Theorem license_badge_image_constant (L : string) (HL : L <> "") :
  GenerateMarkdown.renderLicenseBadge (VStr L) = L +:+ crates_badge /\
  GenerateMarkdown.renderLicenseLink (VStr L) = crates_badge +:+ " " +:+ L /\
  crates_badge = "![Crates.io](https://img.shields.io/crates/l/rustc-serialize/0.3.24)".
Proof.
  unfold GenerateMarkdown.renderLicenseBadge, GenerateMarkdown.renderLicenseLink.
  rewrite (strict_neq_nonempty L HL). repeat split.
Qed.

Lemma license_badge_image_constant_BSD :
  "BSD" <> "" /\
  GenerateMarkdown.renderLicenseBadge (VStr "BSD") =
    "BSD![Crates.io](https://img.shields.io/crates/l/rustc-serialize/0.3.24)" /\
  GenerateMarkdown.renderLicenseLink (VStr "BSD") =
    "![Crates.io](https://img.shields.io/crates/l/rustc-serialize/0.3.24) BSD".
Proof.
  assert (H : "BSD" <> "") by discriminate.
  pose proof (license_badge_image_constant "BSD" H) as (Hb & Hl & _).
  exact (conj H (conj Hb Hl)).
Defined.

(** ** Rendering *)

(** C1. generateReadme returns a text for every AnswerSet and never raises.
    This holds of the second script.  In src/index.js the table of contents
    interpolates [data.description], and [data] is declared nowhere: the
    call raises a ReferenceError for the sample AnswerSet of the
    specification, and for every other one. *)
Theorem generateReadme_index_raises :
  Index.generateReadme demo = Throw (ReferenceError "data") /\
  (forall answers, Index.generateReadme answers = Throw (ReferenceError "data")) /\
  (forall answers, exists doc, Unnamed.generateReadme answers = Ok doc).
Proof.
  split; [apply Index_generateReadme_throws|].
  split; [apply Index_generateReadme_throws | apply Unnamed_generateReadme_returns].
Qed.

(** C5. The rendered document has a line made of the title heading marker
    followed by the supplied title.  The second script renders it as the
    first line, for every title; src/index.js has the same first template
    line but raises before it returns a document. *)
Theorem generateReadme_title_line (title : string) (answers : gmap string value) :
  Index.generateReadme (<["title" := VStr title]> answers) = Throw (ReferenceError "data") /\
  exists rest,
    Unnamed.generateReadme (<["title" := VStr title]> answers)
    = Ok ("# " +:+ title +:+ LF +:+ rest).
Proof.
  split; [apply Index_generateReadme_throws|].
  render_unnamed. unfold prop at 1. rewrite lookup_insert_eq. cbn [default to_string].
  eexists. cbn [String.concat]. rewrite append_assoc. reflexivity.
Qed.

(** Evaluation reads the scope at the names the template interpolates, and
    nowhere else. *)
Lemma eval_piece_ext (env1 env2 : gmap string value) (p : piece) :
  Forall (fun x => env1 !! x = env2 !! x) (piece_idents p) ->
  eval_piece env1 p = eval_piece env2 p.
Proof.
  destruct p as [s|x|x f]; cbn [piece_idents eval_piece]; [reflexivity| |];
    intros H; apply Forall_cons_1 in H as [H _]; unfold resolve; now rewrite H.
Qed.

Lemma eval_line_ext (env1 env2 : gmap string value) (l : list piece) :
  Forall (fun x => env1 !! x = env2 !! x) (flat_map piece_idents l) ->
  eval_line env1 l = eval_line env2 l.
Proof.
  induction l as [|p l IH]; cbn [flat_map eval_line]; [reflexivity|].
  intros [Hp Hl]%Forall_app. now rewrite (eval_piece_ext _ _ _ Hp), (IH Hl).
Qed.

Lemma eval_each_ext (env1 env2 : gmap string value) (ls : list (list piece)) :
  Forall (fun x => env1 !! x = env2 !! x) (template_idents ls) ->
  eval_each env1 ls = eval_each env2 ls.
Proof.
  unfold template_idents.
  induction ls as [|l ls IH]; cbn [flat_map eval_each]; [reflexivity|].
  intros [Hl Hls]%Forall_app. now rewrite (eval_line_ext _ _ _ Hl), (IH Hls).
Qed.

Lemma eval_lines_ext (env1 env2 : gmap string value) (ls : list (list piece)) :
  Forall (fun x => env1 !! x = env2 !! x) (template_idents ls) ->
  eval_lines env1 ls = eval_lines env2 ls.
Proof. intros H. now rewrite !eval_lines_each, (eval_each_ext _ _ _ H). Qed.

(** The template of the second script interpolates parameters only. *)
Lemma Unnamed_template_reads_params :
  Forall (fun x => In x params) (template_idents Unnamed.template).
Proof. repeat (constructor; [cbv; tauto|]). constructor. Qed.

(** C6. generateReadme is deterministic.  Its result is fixed by the nine
    fields of its argument and by nothing else: two calls whose arguments
    agree on these fields (identical arguments do) give identical results,
    and the template of the second script gives that same result in every
    scope that binds the parameters to the fields, whatever else the scope
    holds.  In src/index.js both calls raise the same error. *)
Theorem generateReadme_deterministic (a b scope_a scope_b : gmap string value)
    (Hab : Forall (fun x => prop a x = prop b x) params)
    (Ha : Forall (fun x => scope_a !! x = Some (prop a x)) params)
    (Hb : Forall (fun x => scope_b !! x = Some (prop b x)) params) :
  Unnamed.generateReadme a = Unnamed.generateReadme b /\
  eval_lines scope_a Unnamed.template = Unnamed.generateReadme a /\
  eval_lines scope_b Unnamed.template = Unnamed.generateReadme b /\
  Index.generateReadme a = Index.generateReadme b.
Proof.
  assert (Hscope : forall (o scope : gmap string value),
             Forall (fun x => scope !! x = Some (prop o x)) params ->
             eval_lines scope Unnamed.template = Unnamed.generateReadme o).
  { intros o scope Hs. unfold Unnamed.generateReadme. apply eval_lines_ext.
    eapply Forall_impl; [exact Unnamed_template_reads_params|].
    intros x Hx. cbn beta in Hx. apply list_elem_of_In in Hx.
    rewrite (proj1 (Forall_forall _ _) Hs x Hx).
    unfold destructure. rewrite bind_names_lookup. now rewrite decide_True. }
  destruct (generateReadme_reads_params a b Hab) as [Hi Hu].
  split; [exact Hu|]. split; [exact (Hscope a scope_a Ha)|].
  split; [exact (Hscope b scope_b Hb) | exact Hi].
Qed.

Lemma generateReadme_deterministic_demo :
  Forall (fun x => prop demo x = prop demo x) params /\
  Forall (fun x => demo_wider_scope !! x = Some (prop demo x)) params /\
  Forall (fun x => destructure params demo !! x = Some (prop demo x)) params /\
  demo_wider_scope <> destructure params demo /\
  eval_lines demo_wider_scope Unnamed.template = Unnamed.generateReadme demo /\
  eval_lines (destructure params demo) Unnamed.template = Unnamed.generateReadme demo.
Proof.
  assert (Hab : Forall (fun x => prop demo x = prop demo x) params)
    by (repeat constructor).
  assert (Ha : Forall (fun x => demo_wider_scope !! x = Some (prop demo x)) params)
    by (repeat constructor).
  assert (Hb : Forall (fun x => destructure params demo !! x = Some (prop demo x)) params)
    by (repeat constructor).
  split; [exact Hab|]. split; [exact Ha|]. split; [exact Hb|]. split.
  - intros E.
    assert (H : demo_wider_scope !! "inquirer" = destructure params demo !! "inquirer")
      by now rewrite E.
    discriminate H.
  - pose proof (generateReadme_deterministic demo demo demo_wider_scope
                  (destructure params demo) Hab Ha Hb) as (_ & H1 & H2 & _).
    exact (conj H1 H2).
Defined.

(** The answers are read through the parameters only: a key the parameter
    list does not name, such as contribution, has no effect on the result. *)
Lemma generateReadme_ignores_contribution (answers : gmap string value) (v : value) :
  Unnamed.generateReadme (<["contribution" := v]> answers) = Unnamed.generateReadme answers.
Proof.
  apply generateReadme_reads_params.
  repeat constructor; unfold prop; now rewrite lookup_insert_ne.
Qed.

(** C9. The question lists store the contribution answer under contribution
    and define no credits key, so the credits parameter is undefined whatever
    the operator answers.  The second script renders the Contributing section
    with the body undefined; src/index.js raises before it returns a
    document. *)
Theorem credits_parameter_undefined (op : operator) :
  prop (prompt Index.questions op) "credits" = VUndefined /\
  prop (prompt Unnamed.questions op) "credits" = VUndefined /\
  prop (prompt Index.questions op) "contribution" = VStr (typed (op 5)) /\
  Index.generateReadme (prompt Index.questions op) = Throw (ReferenceError "data") /\
  exists doc,
    Unnamed.generateReadme (prompt Unnamed.questions op) = Ok doc /\
    includes doc (LF +:+ "## Contributing" +:+ LF +:+ "    undefined" +:+ LF +:+
                  LF +:+ "## Tests" +:+ LF) = true.
Proof.
  assert (Hi : prop (prompt Index.questions op) "credits" = VUndefined).
  { apply prompt_missing_key. rewrite list_elem_of_In. cbv.
    intros H. repeat (destruct H as [H|H]; [discriminate H|]). exact H. }
  assert (Hu : prop (prompt Unnamed.questions op) "credits" = VUndefined).
  { apply prompt_missing_key. rewrite list_elem_of_In. cbv.
    intros H. repeat (destruct H as [H|H]; [discriminate H|]). exact H. }
  split; [exact Hi|]. split; [exact Hu|].
  split; [reflexivity|].
  split; [apply Index_generateReadme_throws|].
  render_unnamed. rewrite Hu. cbn [to_string].
  eexists. split; [reflexivity|].
  cbn [String.concat]. find_text.
Qed.

Lemma single_line_field (answers : gmap string value) (x : string) :
  single_line_fields answers = true -> In x params ->
  single_line (to_string (prop answers x)) = true.
Proof.
  unfold single_line_fields. intros H Hx.
  exact (proj1 (forallb_forall _ _) H x Hx).
Qed.

(** C2, as the code has it.  For an AnswerSet whose fields are single lines,
    the heading lines of the document rendered by the second script are the
    same eight, in the same order, whatever the fields hold: Description,
    Table of Contents, Installation, Usage, License, Contributing, Tests and
    Questions.  The License heading is kept when the license is empty; the
    section under it is the indentation followed by the license text, and a
    blank line.  The table of contents is the same seven entries, the License
    entry among them, whatever the license. *)
Theorem headings_fixed (answers : gmap string value)
    (Hfields : single_line_fields answers = true) :
  exists doc,
    Unnamed.generateReadme answers = Ok doc /\
    headings doc =
      [ "## Description"; "## Table of Contents"; "## Installation"; "## Usage";
        "## License"; "## Contributing"; "## Tests"; "##Questions" ] /\
    section_body "## License" (lines doc) =
      [ "    " +:+ to_string (prop answers "license"); "" ] /\
    section_body "## Table of Contents" (lines doc) =
      [ "*[Description](#description) "; "*[Installation](#installation)"; "*[Usage](#usage)";
        "*[License](#license)"; "*[Credits](#credits)"; "*[Tests](#tests)";
        "*[Questions] (#questions)"; ""; "" ].
Proof.
  render_unnamed. eexists. split; [reflexivity|].
  unfold headings. rewrite lines_concat; [repeat (split; [reflexivity|]); reflexivity|].
  pose proof (single_line_field answers) as Hx. specialize (fun x => Hx x Hfields).
  repeat constructor; try reflexivity;
    rewrite !single_line_app, Hx by (cbv; tauto); reflexivity.
Qed.

Lemma headings_fixed_unlicensed :
  single_line_fields demo_unlicensed = true /\
  exists doc,
    Unnamed.generateReadme demo_unlicensed = Ok doc /\
    headings doc =
      [ "## Description"; "## Table of Contents"; "## Installation"; "## Usage";
        "## License"; "## Contributing"; "## Tests"; "##Questions" ] /\
    section_body "## License" (lines doc) = [ "    "; "" ] /\
    section_body "## Table of Contents" (lines doc) =
      [ "*[Description](#description) "; "*[Installation](#installation)"; "*[Usage](#usage)";
        "*[License](#license)"; "*[Credits](#credits)"; "*[Tests](#tests)";
        "*[Questions] (#questions)"; ""; "" ].
Proof.
  assert (H : single_line_fields demo_unlicensed = true) by (vm_compute; reflexivity).
  split; [exact H|].
  exact (headings_fixed demo_unlicensed H).
Defined.

(** C2, as stated, fails: with the empty license the document still has the
    License heading and the License entry of the table of contents. *)
Lemma license_heading_kept_when_unlicensed :
  prop demo_unlicensed "license" = VStr "" /\
  exists doc,
    Unnamed.generateReadme demo_unlicensed = Ok doc /\
    In "## License" (headings doc) /\
    includes doc "*[License](#license)" = true.
Proof.
  split; [reflexivity|].
  eexists. split; [vm_compute; reflexivity|].
  split; [|vm_compute; reflexivity].
  vm_compute. do 4 right. left. reflexivity.
Qed.

(** A field of two lines can bring a heading of its own: the headings are
    fixed for single-line fields only. *)
Lemma heading_from_a_second_line :
  exists doc,
    Unnamed.generateReadme demo_two_lines = Ok doc /\
    headings doc =
      [ "## Description"; "## Extra"; "## Table of Contents"; "## Installation"; "## Usage";
        "## License"; "## Contributing"; "## Tests"; "##Questions" ].
Proof. eexists. split; vm_compute; reflexivity. Qed.

(** ** The question lists *)


(** ** Writing the file *)

(** C8. Once the document is rendered, init calls fs.writeFile once, for
    README.md with the rendered document.  When the write succeeds the file
    holds the document and the success message is printed; when it fails the
    error is printed.  Either way nothing else is written or printed, the
    exit code is left alone and no rejection is raised. *)
Theorem init_writes_readme (questions : list question)
    (generateReadme : gmap string value -> result string)
    (op : operator) (w : world) (doc : string)
    (Hdoc : generateReadme (prompt questions op) = Ok doc) :
  let w' := init questions generateReadme op w in
  fs_writes w' = fs_writes w ++ [("README.md", doc)] /\
  exitCode w' = exitCode w /\
  unhandled w' = unhandled w /\
  match write_fault w with
  | None =>
      files w' = <["README.md" := doc]> (files w) /\
      console w' = console w ++ [LogText "Successfully written Readme!"]
  | Some err =>
      console w' = console w ++ [LogError err]
  end.
Proof.
  unfold init. rewrite Hdoc. unfold writeFile.
  destruct (write_fault w) as [err|]; cbn; repeat split.
Qed.

Lemma init_writes_readme_demo :
  exists doc,
    Unnamed.generateReadme (prompt Unnamed.questions demo_operator) = Ok doc /\
    files (Unnamed_main demo_operator empty_world) = {["README.md" := doc]} /\
    console (Unnamed_main demo_operator empty_world) = [LogText "Successfully written Readme!"] /\
    fs_writes (Unnamed_main demo_operator empty_world) = [("README.md", doc)].
Proof.
  eexists. split; [vm_compute; reflexivity|].
  match goal with
  | |- context [ {[ _ := ?d ]} ] =>
      assert (Hdoc : Unnamed.generateReadme (prompt Unnamed.questions demo_operator) = Ok d)
        by (vm_compute; reflexivity);
      pose proof (init_writes_readme Unnamed.questions Unnamed.generateReadme
                    demo_operator empty_world d Hdoc) as (Hw & _ & _ & Hf & Hc)
  end.
  exact (conj Hf (conj Hc Hw)).
Defined.

(** A failed write prints the error it met and nothing more. *)
Lemma failed_write_prints_error :
  console (Unnamed_main demo_operator readonly_world) = [LogError (SystemError "EACCES")] /\
  files (Unnamed_main demo_operator readonly_world) = ∅.
Proof. split; vm_compute; reflexivity. Qed.

(** In src/index.js the renderer raises inside the promise callback: the
    run ends with the rejection, nothing written and nothing printed. *)
Lemma Index_main_rejects (op : operator) (w : world) :
  Index_main op w = reject (ReferenceError "data") w.
Proof. unfold Index_main, init. now rewrite Index_generateReadme_throws. Qed.

(** ** The question-flow helper *)

Section InquisitorFacts.

Import Inquisitor.
Context {A : Type}.

Lemma inquiry_induction (P : @inquiry A -> Prop)
    (HS : forall name, P (IString name))
    (HA : forall items, Forall P items -> P (IArray items))
    (HPA : forall q, P (IPivot q Absent))
    (HPI : forall q, P (IPivot q Invalid))
    (HP : forall q f, (forall a, Forall P (f a)) -> P (IPivot q (Valid f)))
    (HO : forall t, P (IOther t)) :
  forall i, P i.
Proof.
  fix IH 1. intros [name|items|q logic|t].
  - apply HS.
  - apply HA. induction items as [|x l IHl]; constructor; [apply IH | exact IHl].
  - destruct logic as [| |f]; [apply HPA | apply HPI | apply HP].
    intros a. induction (f a) as [|x l IHl]; constructor; [apply IH | exact IHl].
  - apply HO.
Qed.


Variable this : @instance A.

Lemma set_prop_lookup_ne (o : gmap string (@answers A)) (k n : string) (v : answers) :
  k <> n -> set_prop o k v !! n = o !! n.
Proof.
  intros H. unfold set_prop. destruct (String.eqb k "__proto__"); [reflexivity|].
  now rewrite lookup_insert_ne.
Qed.

Lemma set_prop_lookup_eq (o : gmap string (@answers A)) (k : string) (v : answers) :
  k <> "__proto__" -> set_prop o k v !! k = Some v.
Proof.
  intros H. unfold set_prop. apply String.eqb_neq in H. rewrite H.
  now rewrite lookup_insert_eq.
Qed.

Lemma set_prop_lookup_proto (o : gmap string (@answers A)) (k : string) (v : answers) :
  set_prop o k v !! "__proto__" = o !! "__proto__".
Proof.
  unfold set_prop. destruct (String.eqb_spec k "__proto__") as [E|E]; [reflexivity|].
  now rewrite lookup_insert_ne.
Qed.

Lemma reduce_app {X : Type}
    (fn : gmap string (@answers A) -> X -> list string -> promise (gmap string answers))
    (l1 l2 : list X) :
  forall acc asked,
    reduce fn (l1 ++ l2) acc asked =
    match reduce fn l1 acc asked with
    | Resolved acc' asked' => reduce fn l2 acc' asked'
    | Rejected e asked' => Rejected e asked'
    end.
Proof.
  induction l1 as [|x l1 IH]; intros acc asked; [reflexivity|].
  cbn [app reduce]. destruct (fn acc x asked) as [acc' asked'|e asked']; [apply IH | reflexivity].
Qed.

Lemma string_inquiry_asked (results : gmap string answers) (name : string) (asked : list string) :
  in_manifest this name = true ->
  _reduceInquiries this results (IString name) asked =
  Resolved (set_prop results name (Answer (prompter this (length asked) name))) (asked ++ [name]).
Proof. intros H. cbn. unfold _performStringInquiry. now rewrite H. Qed.

Lemma string_inquiry_unknown (results : gmap string answers) (name : string) (asked : list string) :
  in_manifest this name = false ->
  _reduceInquiries this results (IString name) asked = Rejected (not_found name) asked.
Proof. intros H. cbn. unfold _performStringInquiry. now rewrite H. Qed.

Lemma reduce_names (names : list string) :
  Forall (fun n => in_manifest this n = true) names ->
  forall acc asked,
  exists r,
    reduce (_reduceInquiries this) (IString <$> names) acc asked = Resolved r (asked ++ names) /\
    (forall n, n ∉ names -> r !! n = acc !! n) /\
    (forall k n, names !! k = Some n -> n <> "__proto__" ->
                 (forall j, k < j -> names !! j <> Some n) ->
                 r !! n = Some (Answer (prompter this (length asked + k) n))) /\
    r !! "__proto__" = acc !! "__proto__".
Proof.
  induction 1 as [|n0 names Hn0 _ IH]; intros acc asked.
  - exists acc. cbn. rewrite app_nil_r. repeat split; try reflexivity.
    intros k n Hk. now rewrite lookup_nil in Hk.
  - cbn [fmap list_fmap reduce]. rewrite string_inquiry_asked by exact Hn0.
    destruct (IH (set_prop acc n0 (Answer (prompter this (length asked) n0))) (asked ++ [n0]))
      as (r & Hr & Hout & Hin & Hproto).
    exists r. rewrite <- app_assoc in Hr. split; [exact Hr|]. split; [|split].
    + intros n Hn. apply not_elem_of_cons in Hn as [Hne Hn].
      rewrite (Hout n Hn). now apply set_prop_lookup_ne.
    + intros [|k] n Hk Hproto' Hlast.
      * injection Hk as ->.
        assert (Hn : n ∉ names).
        { intros (j & Hj)%list_elem_of_lookup. apply (Hlast (S j)); [lia | exact Hj]. }
        rewrite (Hout n Hn), Nat.add_0_r. now apply set_prop_lookup_eq.
      * rewrite (Hin k n Hk Hproto').
        -- rewrite length_app. cbn. do 3 f_equal. lia.
        -- intros j Hj. apply (Hlast (S j)). lia.
    + rewrite Hproto. apply set_prop_lookup_proto.
Qed.


Lemma then_trace {X Y : Type} (p : promise X) (k : X -> Y) : trace (then_ p k) = trace p.
Proof. destruct p; reflexivity. Qed.

Lemma reduce_trace (P : string -> Prop) (items : list (@inquiry A)) :
  Forall (fun i => forall results asked, exists more,
            trace (_reduceInquiries this results i asked) = asked ++ more /\ Forall P more) items ->
  forall acc asked, exists more,
    trace (reduce (_reduceInquiries this) items acc asked) = asked ++ more /\ Forall P more.
Proof.
  induction 1 as [|i items Hi _ IH]; intros acc asked.
  - exists []. cbn. now rewrite app_nil_r.
  - cbn [reduce]. destruct (Hi acc asked) as (m1 & E1 & F1).
    destruct (_reduceInquiries this acc i asked) as [acc' asked'|e asked']; cbn [trace] in E1.
    + destruct (IH acc' asked') as (m2 & E2 & F2). exists (m1 ++ m2).
      rewrite E2, E1, <- app_assoc. split; [reflexivity | now apply Forall_app].
    + exists m1. now split.
Qed.

(** Whatever is asked, the prompter is only ever called for names the
    manifest holds, and what was asked before stays asked, in order. *)
Theorem prompter_called_for_manifest_names_only (i : @inquiry A) :
  forall results asked, exists more,
    trace (_reduceInquiries this results i asked) = asked ++ more /\
    Forall (fun n => in_manifest this n = true) more.
Proof.
  induction i as [name|items IH|q|q|q f IH|t] using inquiry_induction; intros results asked.
  - cbn. unfold _performStringInquiry.
    destruct (in_manifest this name) eqn:E; cbn.
    + exists [name]. split; [reflexivity | now repeat constructor].
    + exists []. now rewrite app_nil_r.
  - cbn. unfold _performArrayInquiry. rewrite then_trace. now apply reduce_trace.
  - exists []. rewrite app_nil_r. split; [|constructor].
    cbn. unfold _performPivotInquiry. destruct q as [| |q]; try reflexivity.
    destruct (in_manifest this q); reflexivity.
  - cbn. unfold _performPivotInquiry. destruct q as [| |q];
      try (exists []; rewrite app_nil_r; split; [reflexivity | constructor]).
    destruct (in_manifest this q) eqn:E; cbn.
    + exists [q]. split; [reflexivity | now repeat constructor].
    + exists []. now rewrite app_nil_r.
  - cbn. unfold _performPivotInquiry. destruct q as [| |q];
      try (exists []; rewrite app_nil_r; split; [reflexivity | constructor]).
    destruct (in_manifest this q) eqn:E; cbn [negb].
    + cbv iota. rewrite then_trace.
      destruct (reduce_trace _ _ (IH (prompter this (length asked) q))
                  {[ "_answer" := Answer (prompter this (length asked) q) ]} (asked ++ [q]))
        as (more & Em & Fm).
      exists (q :: more). rewrite Em, <- app_assoc. split; [reflexivity|].
      constructor; [exact E | exact Fm].
    + exists []. cbn. now rewrite app_nil_r.
  - exists []. cbn. now rewrite app_nil_r.
Qed.


Lemma text_names (names : list string) :
  text (IArray (@IString A <$> names)) = String.concat "," names.
Proof.
  cbn [text]. f_equal. induction names as [|n names IH]; [reflexivity|].
  cbn. now rewrite IH.
Qed.

(** Asking a flat list of manifest names resolves: the names are put to the
    prompter in array order, and the result holds, under each name, the
    answer of the last turn that asked it, and nothing else. *)
Theorem ask_names_in_order (names : list string)
    (Hne : names <> [])
    (Hm : Forall (fun n => in_manifest this n = true) names) :
  exists r,
    ask this (IArray (IString <$> names)) = Returns (Resolved r names) /\
    (forall n, n ∉ names -> r !! n = None) /\
    (forall k n, names !! k = Some n -> n <> "__proto__" ->
                 (forall j, k < j -> names !! j <> Some n) ->
                 r !! n = Some (Answer (prompter this k n))).
Proof.
  destruct (reduce_names names Hm ∅ []) as (r & Hr & Hout & Hin & _).
  exists r. split; [|split].
  - destruct names as [|n names]; [contradiction | exact (f_equal Returns Hr)].
  - intros n Hn. now rewrite (Hout n Hn), lookup_empty.
  - intros k n Hk Hp Hlast. exact (Hin k n Hk Hp Hlast).
Qed.

(** The first name the manifest lacks rejects the whole run: the names
    before it have been asked, the names after it never are, and no result
    is delivered. *)
Theorem ask_stops_at_unknown_name (before after : list string) (x : string)
    (Hbefore : Forall (fun n => in_manifest this n = true) before)
    (Hx : in_manifest this x = false) :
  ask this (IArray (IString <$> (before ++ x :: after))) =
  Returns (Rejected (not_found x) before).
Proof.
  assert (E : reduce (_reduceInquiries this) (IString <$> (before ++ x :: after)) ∅ [] =
              Rejected (not_found x) before).
  { rewrite fmap_app, reduce_app.
    destruct (reduce_names before Hbefore ∅ []) as (r & -> & _).
    cbn [fmap list_fmap reduce]. now rewrite string_inquiry_unknown. }
  destruct before as [|b before]; exact (f_equal Returns E).
Qed.

(** Entries that are neither strings, arrays nor objects are passed over:
    they ask nothing and leave the results as they are. *)
Theorem other_entries_are_skipped (items : list (@inquiry A)) :
  forall acc asked,
    reduce (_reduceInquiries this) (List.filter (fun i => negb (is_other i)) items) acc asked =
    reduce (_reduceInquiries this) items acc asked.
Proof.
  induction items as [|i items IH]; intros acc asked; [reflexivity|].
  destruct i as [name|l|q lg|t]; cbn [List.filter is_other negb reduce];
    try (destruct (_reduceInquiries this acc _ asked); [apply IH | reflexivity]).
  cbn [_reduceInquiries]. apply IH.
Qed.

(** A group of manifest names is asked in order into a fresh object, which
    is stored under the names joined by commas; the results around the
    group keep their other keys. *)
Theorem group_stored_under_joined_names (names : list string)
    (results : gmap string answers) (asked : list string)
    (Hm : Forall (fun n => in_manifest this n = true) names) :
  exists r,
    _reduceInquiries this results (IArray (IString <$> names)) asked =
      Resolved (set_prop results (String.concat "," names) (Nested r)) (asked ++ names) /\
    (forall n, n ∉ names -> r !! n = None) /\
    (forall k n, names !! k = Some n -> n <> "__proto__" ->
                 (forall j, k < j -> names !! j <> Some n) ->
                 r !! n = Some (Answer (prompter this (length asked + k) n))).
Proof.
  destruct (reduce_names names Hm ∅ asked) as (r & Hr & Hout & Hin & _).
  exists r. split; [|split].
  - cbn [_reduceInquiries]. unfold _performArrayInquiry. rewrite Hr. cbn [then_].
    now rewrite text_names.
  - intros n Hn. now rewrite (Hout n Hn), lookup_empty.
  - exact Hin.
Qed.

(** A pivot whose question is in the manifest: without a logic key it is
    rejected before anything is asked; with a logic key that holds no
    function it passes the validation, its question is asked, and the run
    fails only then. *)
Theorem pivot_logic_validation (q : string) (results : gmap string answers)
    (asked : list string) (Hq : in_manifest this q = true) :
  (exists msg, _reduceInquiries this results (IPivot (Valid q) Absent) asked
               = Rejected (Failure msg) asked) /\
  _reduceInquiries this results (IPivot (Valid q) Invalid) asked
  = Rejected NotCallable (asked ++ [q]).
Proof.
  cbn [_reduceInquiries]. unfold _performPivotInquiry. rewrite Hq. cbn [negb].
  split; [eexists|]; reflexivity.
Qed.

(** A pivot asks its question, hands the answer to its logic, asks the
    names the logic returns, and stores under its question an object that
    holds the pivot's answer under _answer beside the answers of the branch. *)
Theorem pivot_branches_on_answer (q : string) (f : A -> list (@inquiry A))
    (names : list string) (results : gmap string answers) (asked : list string)
    (Hq : in_manifest this q = true)
    (Hf : f (prompter this (length asked) q) = IString <$> names)
    (Hm : Forall (fun n => in_manifest this n = true) names) :
  exists r,
    _reduceInquiries this results (IPivot (Valid q) (Valid f)) asked =
      Resolved (set_prop results q (Nested r)) (asked ++ q :: names) /\
    ("_answer" ∉ names -> r !! "_answer" = Some (Answer (prompter this (length asked) q))) /\
    (forall k n, names !! k = Some n -> n <> "__proto__" ->
                 (forall j, k < j -> names !! j <> Some n) ->
                 r !! n = Some (Answer (prompter this (S (length asked) + k) n))).
Proof.
  destruct (reduce_names names Hm {[ "_answer" := Answer (prompter this (length asked) q) ]}
              (asked ++ [q])) as (r & Hr & Hout & Hin & _).
  exists r. split; [|split].
  - cbn [_reduceInquiries]. unfold _performPivotInquiry. rewrite Hq. cbn [negb]. cbv iota.
    rewrite Hf, Hr. cbn [then_]. now rewrite <- app_assoc.
  - intros Hn. rewrite (Hout _ Hn). apply lookup_singleton_eq.
  - intros k n Hk Hp Hlast. rewrite (Hin k n Hk Hp Hlast).
    rewrite length_app. cbn. do 3 f_equal. lia.
Qed.

End InquisitorFacts.

Section ConstructorFacts.

Import Inquisitor.
Context {A : Type}.
Variable default_prompter : @prompter_fn A.

(** Every instance the constructor returns has a manifest that is an
    object with at least one key; its prompter is opts.prompter when that is
    a function and the default prompter otherwise. *)
Theorem constructed_manifest_nonempty (opts : jsval) (inst : instance)
    (H : Inquisitor default_prompter opts = Returns inst) :
  (exists fields, manifest inst = Object fields /\ fields <> ∅) /\
  prompter inst = match get opts "prompter" with
                  | Function p => p
                  | _ => default_prompter
                  end.
Proof.
  unfold Inquisitor in H.
  set (o := if truthy opts then opts else Object ∅) in H.
  assert (Ho : get o "prompter" = get opts "prompter").
  { subst o. destruct opts; reflexivity. }
  set (m := if truthy (get o "manifest") then get o "manifest"
            else if truthy (get o "prompter") then Object ∅ else o) in H.
  destruct m as [| |p|fields]; cbn in H; try discriminate H.
  destruct (size fields =? 0) eqn:E; [discriminate H|].
  injection H as <-. cbn. split; [|now rewrite Ho].
  exists fields. split; [reflexivity|].
  intros ->. now rewrite map_size_empty in E.
Qed.

(** Options that carry a prompter and no manifest are always refused: the
    manifest defaults to an empty object.  The same holds of a bare manifest
    that has a question named prompter. *)
Theorem prompter_without_manifest_refused (fields : gmap string jsval)
    (Hp : truthy (get (Object fields) "prompter") = true)
    (Hm : truthy (get (Object fields) "manifest") = false) :
  Inquisitor default_prompter (Object fields) = Throws "An invalid manifest was supplied".
Proof.
  unfold Inquisitor. cbn [truthy]. rewrite Hm, Hp. reflexivity.
Qed.

(** A bare manifest with at least one question, none of them named manifest
    or prompter, is taken as it is, with the default prompter; an options
    object is reduced to its manifest. *)
Theorem manifest_accepted (fields : gmap string jsval) (Hne : fields <> ∅) :
  (fields !! "manifest" = None -> fields !! "prompter" = None ->
   Inquisitor default_prompter (Object fields)
   = Returns (Instance default_prompter (Object fields))) /\
  (forall p, Inquisitor default_prompter
               (Object {[ "manifest" := Object fields; "prompter" := Function p ]})
             = Returns (Instance p (Object fields))).
Proof.
  assert (Hs : (size fields =? 0) = false).
  { apply Nat.eqb_neq. intros E. now apply map_size_empty_iff in E. }
  split.
  - intros Hm Hp. unfold Inquisitor. cbn. rewrite Hm, Hp. cbn. now rewrite Hs.
  - intros p. unfold Inquisitor. cbn.
    rewrite lookup_insert_eq. cbn.
    rewrite lookup_insert_ne by discriminate. rewrite lookup_singleton_eq. cbn.
    now rewrite Hs.
Qed.

End ConstructorFacts.

Section InquisitorSamples.

Import Inquisitor.

Lemma demo_names_in_manifest :
  Forall (fun n => in_manifest demo_inquisitor n = true) ["pet"; "name"].
Proof. repeat constructor. Qed.

Lemma ask_names_in_order_demo :
  ["pet"; "name"] <> [] /\
  Forall (fun n => in_manifest demo_inquisitor n = true) ["pet"; "name"] /\
  exists r,
    ask demo_inquisitor (IArray [IString "pet"; IString "name"])
    = Returns (Resolved r ["pet"; "name"]) /\
    r !! "pet" = Some (Answer "pet!") /\
    r !! "name" = Some (Answer "name!") /\
    r !! "age" = None.
Proof.
  assert (Hne : ["pet"; "name"] <> []) by discriminate.
  split; [exact Hne|]. split; [exact demo_names_in_manifest|].
  destruct (ask_names_in_order demo_inquisitor ["pet"; "name"] Hne demo_names_in_manifest)
    as (r & Hr & Hout & Hin).
  exists r. split; [exact Hr|]. split; [|split].
  - apply (Hin 0 "pet" eq_refl); [discriminate|].
    intros [|[|j]] Hj; [lia | discriminate | discriminate].
  - apply (Hin 1 "name" eq_refl); [discriminate|].
    intros [|[|j]] Hj; [lia | lia | discriminate].
  - apply Hout. rewrite list_elem_of_In. cbv. intros [H|[H|H]]; [discriminate H | discriminate H | exact H].
Defined.

Lemma ask_stops_at_unknown_name_demo :
  Forall (fun n => in_manifest demo_inquisitor n = true) ["pet"; "name"] /\
  in_manifest demo_inquisitor "colour" = false /\
  ask demo_inquisitor
    (IArray [IString "pet"; IString "name"; IString "colour"; IString "age"])
  = Returns (Rejected (not_found "colour") ["pet"; "name"]).
Proof.
  split; [exact demo_names_in_manifest|]. split; [reflexivity|].
  exact (ask_stops_at_unknown_name demo_inquisitor ["pet"; "name"] ["age"] "colour"
           demo_names_in_manifest eq_refl).
Defined.

Lemma group_stored_under_joined_names_demo :
  Forall (fun n => in_manifest demo_inquisitor n = true) ["pet"; "name"] /\
  exists r,
    _reduceInquiries demo_inquisitor ∅ (IArray [IString "pet"; IString "name"]) []
    = Resolved (set_prop ∅ "pet,name" (Nested r)) ["pet"; "name"].
Proof.
  split; [exact demo_names_in_manifest|].
  destruct (group_stored_under_joined_names demo_inquisitor ["pet"; "name"] ∅ []
              demo_names_in_manifest) as (r & Hr & _).
  exists r. exact Hr.
Defined.

Lemma pivot_logic_validation_demo :
  in_manifest demo_inquisitor "pet" = true /\
  _reduceInquiries demo_inquisitor ∅ (IPivot (Valid "pet") Invalid) []
  = Rejected NotCallable ["pet"].
Proof.
  split; [reflexivity|].
  exact (proj2 (pivot_logic_validation demo_inquisitor "pet" ∅ [] eq_refl)).
Defined.

Lemma pivot_branches_on_answer_demo :
  in_manifest demo_inquisitor "pet" = true /\
  demo_logic (prompter demo_inquisitor 0 "pet") = IString <$> ["name"] /\
  Forall (fun n => in_manifest demo_inquisitor n = true) ["name"] /\
  exists r,
    _reduceInquiries demo_inquisitor ∅ (IPivot (Valid "pet") (Valid demo_logic)) []
    = Resolved (set_prop ∅ "pet" (Nested r)) ["pet"; "name"] /\
    r !! "_answer" = Some (Answer "pet!") /\
    r !! "name" = Some (Answer "name!").
Proof.
  assert (Hm : Forall (fun n => in_manifest demo_inquisitor n = true) ["name"])
    by (repeat constructor).
  split; [reflexivity|]. split; [reflexivity|]. split; [exact Hm|].
  destruct (pivot_branches_on_answer demo_inquisitor "pet" demo_logic ["name"] ∅ []
              eq_refl eq_refl Hm) as (r & Hr & Ha & Hin).
  exists r. split; [exact Hr|]. split.
  - apply Ha. rewrite list_elem_of_In. cbv. intros [H|H]; [discriminate H | exact H].
  - apply (Hin 0 "name" eq_refl); [discriminate|].
    intros [|j] Hj; [lia | discriminate].
Defined.

Lemma constructed_manifest_nonempty_demo :
  Inquisitor echo_prompter (Object demo_manifest) = Returns demo_inquisitor /\
  exists fields, manifest demo_inquisitor = Object fields /\ fields <> ∅.
Proof.
  assert (H : Inquisitor echo_prompter (Object demo_manifest) = Returns demo_inquisitor)
    by (vm_compute; reflexivity).
  split; [exact H|].
  exact (proj1 (constructed_manifest_nonempty echo_prompter (Object demo_manifest)
                  demo_inquisitor H)).
Defined.

Lemma prompter_without_manifest_refused_demo :
  truthy (get (Object {[ "prompter" := Function echo_prompter ]}) "prompter") = true /\
  truthy (get (Object {[ "prompter" := Function echo_prompter ]}) "manifest") = false /\
  Inquisitor echo_prompter (Object {[ "prompter" := Function echo_prompter ]})
  = Throws "An invalid manifest was supplied".
Proof.
  split; [reflexivity|]. split; [reflexivity|].
  exact (prompter_without_manifest_refused echo_prompter
           {[ "prompter" := Function echo_prompter ]} eq_refl eq_refl).
Defined.

Lemma manifest_accepted_demo :
  demo_manifest <> ∅ /\
  Inquisitor echo_prompter (Object demo_manifest)
  = Returns (Instance echo_prompter (Object demo_manifest)).
Proof.
  assert (Hne : demo_manifest <> ∅).
  { intros E. assert (H : demo_manifest !! "pet" = (∅ : gmap string jsval) !! "pet")
      by now rewrite E.
    discriminate H. }
  split; [exact Hne|].
  exact (proj1 (manifest_accepted echo_prompter demo_manifest Hne) eq_refl eq_refl).
Defined.

End InquisitorSamples.

(** ** More on the renderer *)

Lemma starts_with_app_l (s r sub : string) :
  starts_with s sub = true -> starts_with (s +:+ r) sub = true.
Proof.
  revert s. induction sub as [|c sub IH]; intros s H; [apply starts_with_empty|].
  destruct s as [|d s]; [discriminate H|].
  rewrite append_cons. cbn [starts_with] in *.
  apply andb_true_iff in H as [Hc Hs]. rewrite Hc. cbn. now apply IH.
Qed.

Lemma includes_in_left (s r sub : string) :
  includes s sub = true -> includes (s +:+ r) sub = true.
Proof.
  induction s as [|c s IH]; intros H.
  - cbn [includes] in H. rewrite orb_false_r in H.
    apply includes_here. now apply (starts_with_app_l "" r sub).
  - cbn [includes] in H. apply orb_true_iff in H as [H|H].
    + apply includes_here. now apply starts_with_app_l.
    + rewrite append_cons. apply includes_cons. now apply IH.
Qed.

(** Looks for an interpolated text in a document built by concatenation. *)
Ltac find_field :=
  lazymatch goal with
  | |- includes (?s +:+ ?r) ?x = true =>
      first [ apply includes_app_l
            | solve [apply includes_in_left; find_field]
            | apply includes_app_r; find_field ]
  | |- includes ?x ?x = true => apply includes_self
  end.

Lemma lines_single (s : string) : single_line s = true -> lines s = [s].
Proof.
  intros H. unfold lines. rewrite <- (append_empty_r s) at 1.
  now rewrite (split_lines_app _ _ _ H).
Qed.

Lemma lines_first (s r : string) :
  single_line s = true -> lines (s +:+ LF +:+ r) = s :: lines r.
Proof.
  intros H. unfold lines. now rewrite (split_lines_app _ _ _ H).
Qed.

(** The function utils/generateMarkdown.js exports returns the heading
    marker followed by the title, and nothing more; the document the second
    script renders for the same answers begins with that text and a line
    feed.  For a single-line title it is one line, the first of the
    document. *)
Theorem readme_begins_with_generateMarkdown (answers : gmap string value) :
  GenerateMarkdown.generateMarkdown answers = "# " +:+ to_string (prop answers "title") /\
  (exists rest,
     Unnamed.generateReadme answers
     = Ok (GenerateMarkdown.generateMarkdown answers +:+ LF +:+ rest)) /\
  (single_line (to_string (prop answers "title")) = true ->
   lines (GenerateMarkdown.generateMarkdown answers)
   = [ "# " +:+ to_string (prop answers "title") ] /\
   exists doc,
     Unnamed.generateReadme answers = Ok doc /\
     head (lines doc) = Some (GenerateMarkdown.generateMarkdown answers)).
Proof.
  assert (Hdoc : exists rest,
             Unnamed.generateReadme answers
             = Ok (GenerateMarkdown.generateMarkdown answers +:+ LF +:+ rest)).
  { render_unnamed. unfold GenerateMarkdown.generateMarkdown.
    eexists. cbn [String.concat]. reflexivity. }
  split; [reflexivity|]. split; [exact Hdoc|].
  intros Ht.
  assert (Hline : single_line (GenerateMarkdown.generateMarkdown answers) = true).
  { unfold GenerateMarkdown.generateMarkdown. now rewrite single_line_app, Ht. }
  split; [exact (lines_single _ Hline)|].
  destruct Hdoc as [rest Hrest]. eexists. split; [exact Hrest|].
  now rewrite (lines_first _ _ Hline).
Qed.

Lemma readme_begins_with_generateMarkdown_demo :
  single_line (to_string (prop demo "title")) = true /\
  GenerateMarkdown.generateMarkdown demo = "# Demo" /\
  lines (GenerateMarkdown.generateMarkdown demo) = [ "# Demo" ] /\
  exists doc,
    Unnamed.generateReadme demo = Ok doc /\
    head (lines doc) = Some (GenerateMarkdown.generateMarkdown demo).
Proof.
  assert (H : single_line (to_string (prop demo "title")) = true) by reflexivity.
  destruct (readme_begins_with_generateMarkdown demo) as (Hg & _ & Hl).
  destruct (Hl H) as [Hone Hfirst].
  exact (conj H (conj Hg (conj Hone Hfirst))).
Defined.

(** A key that is not one of the nine parameters has no effect on the
    result of either renderer: the answer stored under contribution, or any
    other extra answer, is dropped. *)
Theorem generateReadme_ignores_other_keys (answers : gmap string value) (k : string)
    (v : value) (Hk : k ∉ params) :
  Index.generateReadme (<[k := v]> answers) = Index.generateReadme answers /\
  Unnamed.generateReadme (<[k := v]> answers) = Unnamed.generateReadme answers.
Proof.
  apply generateReadme_reads_params, Forall_forall. intros x Hx.
  unfold prop. rewrite lookup_insert_ne; [reflexivity|].
  intros ->. exact (Hk Hx).
Qed.

Lemma generateReadme_ignores_other_keys_contribution :
  ("contribution" ∉ params) /\
  Unnamed.generateReadme (<["contribution" := VStr "Jane"]> demo) = Unnamed.generateReadme demo.
Proof.
  assert (H : "contribution" ∉ params).
  { rewrite list_elem_of_In. cbv. intros H.
    repeat (destruct H as [H|H]; [discriminate H|]). exact H. }
  split; [exact H|].
  exact (proj2 (generateReadme_ignores_other_keys demo "contribution" (VStr "Jane") H)).
Defined.

(** A field the answers lack is rendered as the text undefined: the
    document is the one rendered when the field holds that text. *)
Theorem missing_field_renders_undefined (answers : gmap string value) (k : string)
    (Hk : answers !! k = None) :
  Unnamed.generateReadme answers
  = Unnamed.generateReadme (<[k := VStr "undefined"]> answers).
Proof.
  assert (E : forall x, to_string (prop (<[k := VStr "undefined"]> answers) x)
                        = to_string (prop answers x)).
  { intros x. unfold prop. destruct (decide (k = x)) as [<-|Hne].
    - now rewrite lookup_insert_eq, Hk.
    - now rewrite lookup_insert_ne. }
  unfold Unnamed.generateReadme, destructure.
  rewrite !eval_lines_each, !Unnamed_template_lines, !E. reflexivity.
Qed.

Lemma missing_field_renders_undefined_credits :
  demo !! "credits" = None /\
  Unnamed.generateReadme demo = Unnamed.generateReadme (<["credits" := VStr "undefined"]> demo).
Proof.
  split; [reflexivity|].
  exact (missing_field_renders_undefined demo "credits" eq_refl).
Defined.

(** Every parameter is interpolated as it is, neither trimmed nor escaped:
    the document rendered by the second script contains the text of each of
    the nine fields. *)
Theorem fields_interpolated_verbatim (answers : gmap string value) (x : string)
    (Hx : In x params) :
  exists doc,
    Unnamed.generateReadme answers = Ok doc /\
    includes doc (to_string (prop answers x)) = true.
Proof.
  render_unnamed. eexists. split; [reflexivity|].
  cbn [String.concat].
  cbv [params In] in Hx.
  repeat (destruct Hx as [<-|Hx]; [find_field|]). contradiction.
Qed.

Lemma fields_interpolated_verbatim_email :
  In "email" params /\
  exists doc,
    Unnamed.generateReadme demo = Ok doc /\
    includes doc "jane@example.com" = true.
Proof.
  assert (H : In "email" params) by (cbv; tauto).
  split; [exact H|].
  exact (fields_interpolated_verbatim demo "email" H).
Defined.

(** The lines of the document the second script renders, when every field
    is a single line. *)
Lemma Unnamed_document_lines (answers : gmap string value) :
  single_line_fields answers = true ->
  exists doc,
    Unnamed.generateReadme answers = Ok doc /\
    lines doc =
      [ "# " +:+ to_string (prop answers "title");
        "";
        "## Description";
        "    " +:+ to_string (prop answers "description");
        "";
        "## Table of Contents";
        "*[Description](#description) ";
        "*[Installation](#installation)";
        "*[Usage](#usage)";
        "*[License](#license)";
        "*[Credits](#credits)";
        "*[Tests](#tests)";
        "*[Questions] (#questions)";
        "";
        "";
        "## Installation";
        "    " +:+ to_string (prop answers "installation");
        "";
        "## Usage";
        "    " +:+ to_string (prop answers "usage");
        "";
        "## License";
        "    " +:+ to_string (prop answers "license");
        "";
        "## Contributing";
        "    " +:+ to_string (prop answers "credits");
        "";
        "## Tests";
        "    " +:+ to_string (prop answers "tests");
        "";
        "##Questions";
        "";
        "Here is a link to my GitHub profile " +:+ to_string (prop answers "username") +:+ ".";
        "If you have any questions or would like to contribute to this  project you can email me at "
          +:+ to_string (prop answers "email") +:+ ".";
        "" ].
Proof.
  intros Hfields. render_unnamed. eexists. split; [reflexivity|].
  apply lines_concat.
  pose proof (single_line_field answers) as Hx. specialize (fun x => Hx x Hfields).
  repeat constructor; try reflexivity;
    rewrite !single_line_app, Hx by (cbv; tauto); reflexivity.
Qed.

(** Reading the rendered document back: when every field is a single line,
    the section under each heading is the field of that section after four
    spaces, and a blank line; the Contributing section holds the credits
    parameter, and the closing section the two sentences with the username
    and the email. *)
Theorem sections_hold_the_fields (answers : gmap string value)
    (Hfields : single_line_fields answers = true) :
  exists doc,
    Unnamed.generateReadme answers = Ok doc /\
    head (lines doc) = Some ("# " +:+ to_string (prop answers "title")) /\
    section_body "## Description" (lines doc)
      = [ "    " +:+ to_string (prop answers "description"); "" ] /\
    section_body "## Installation" (lines doc)
      = [ "    " +:+ to_string (prop answers "installation"); "" ] /\
    section_body "## Usage" (lines doc)
      = [ "    " +:+ to_string (prop answers "usage"); "" ] /\
    section_body "## Contributing" (lines doc)
      = [ "    " +:+ to_string (prop answers "credits"); "" ] /\
    section_body "## Tests" (lines doc)
      = [ "    " +:+ to_string (prop answers "tests"); "" ] /\
    section_body "##Questions" (lines doc)
      = [ "";
          "Here is a link to my GitHub profile " +:+ to_string (prop answers "username") +:+ ".";
          "If you have any questions or would like to contribute to this  project you can email me at "
            +:+ to_string (prop answers "email") +:+ ".";
          "" ].
Proof.
  destruct (Unnamed_document_lines answers Hfields) as (doc & Hdoc & Hlines).
  exists doc. split; [exact Hdoc|]. rewrite Hlines.
  repeat (split; [reflexivity|]). reflexivity.
Qed.

Lemma sections_hold_the_fields_demo :
  single_line_fields demo = true /\
  exists doc,
    Unnamed.generateReadme demo = Ok doc /\
    section_body "## Installation" (lines doc) = [ "    npm install"; "" ] /\
    section_body "## Contributing" (lines doc) = [ "    undefined"; "" ].
Proof.
  assert (H : single_line_fields demo = true) by (vm_compute; reflexivity).
  split; [exact H|].
  destruct (sections_hold_the_fields demo H) as (doc & Hdoc & _ & _ & Hi & _ & Hc & _).
  exists doc. exact (conj Hdoc (conj Hi Hc)).
Defined.

(** ** More on the license helpers *)

(** Each license helper returns the empty string for the empty license only:
    an undefined license is rendered like a license named undefined. *)
Theorem license_helpers_empty_only_for_empty_license (license : value) :
  (GenerateMarkdown.renderLicenseBadge license = "" <-> license = VStr "") /\
  (GenerateMarkdown.renderLicenseLink license = "" <-> license = VStr "") /\
  (GenerateMarkdown.renderLicenseSection license = "" <-> license = VStr "").
Proof.
  unfold GenerateMarkdown.renderLicenseBadge, GenerateMarkdown.renderLicenseLink,
    GenerateMarkdown.renderLicenseSection.
  destruct license as [|[|c s]]; cbn [strict_neq String.eqb negb to_string];
    repeat split; intros H; try reflexivity; discriminate H.
Qed.

(** ** More on the two scripts *)

(** Running src/index.js writes no file and prints nothing, whatever the
    operator answers and whether or not the disk is writable: the run ends
    with the ReferenceError as an unhandled rejection. *)
Theorem index_run_writes_nothing (op : operator) (w : world) :
  files (Index_main op w) = files w /\
  console (Index_main op w) = console w /\
  fs_writes (Index_main op w) = fs_writes w /\
  unhandled (Index_main op w) = unhandled w ++ [ReferenceError "data"].
Proof.
  unfold Index_main, init. rewrite Index_generateReadme_throws. repeat split.
Qed.

Lemma prompt_fields (op : operator) :
  prop (prompt Unnamed.questions op) "title" = VStr (typed (op 0)) /\
  prop (prompt Unnamed.questions op) "description" = VStr (typed (op 2)) /\
  prop (prompt Unnamed.questions op) "installation" = VStr (typed (op 3)) /\
  prop (prompt Unnamed.questions op) "usage" = VStr (typed (op 4)) /\
  prop (prompt Unnamed.questions op) "credits" = VUndefined /\
  prop (prompt Unnamed.questions op) "tests" = VStr (typed (op 6)) /\
  prop (prompt Unnamed.questions op) "license"
    = VStr (nth (cursor (op 1) `mod` 4) ["MIT/Apache-2.0"; "MIT"; "BSD"; "GPL"] "") /\
  prop (prompt Unnamed.questions op) "username" = VStr (typed (op 7)) /\
  prop (prompt Unnamed.questions op) "email" = VStr (typed (op 8)).
Proof. repeat split. Qed.

(** The answer to the contribution question never reaches the file: two
    operators that differ at that question only leave the same files, the
    same console and the same writes behind. *)
Theorem contribution_answer_is_dropped (op op' : operator) (w : world)
    (Hsame : forall i, i <> 5 -> op i = op' i) :
  Unnamed_main op w = Unnamed_main op' w.
Proof.
  unfold Unnamed_main, init.
  assert (E : Unnamed.generateReadme (prompt Unnamed.questions op)
              = Unnamed.generateReadme (prompt Unnamed.questions op')).
  { apply generateReadme_reads_params.
    destruct (prompt_fields op) as (A0 & A1 & A2 & A3 & A4 & A5 & A6 & A7 & A8).
    destruct (prompt_fields op') as (B0 & B1 & B2 & B3 & B4 & B5 & B6 & B7 & B8).
    repeat constructor; cbn beta;
      first [ rewrite A0, B0 | rewrite A1, B1 | rewrite A2, B2 | rewrite A3, B3
            | rewrite A4, B4 | rewrite A5, B5 | rewrite A6, B6 | rewrite A7, B7
            | rewrite A8, B8 ];
      rewrite ?(Hsame 0), ?(Hsame 1), ?(Hsame 2), ?(Hsame 3), ?(Hsame 4),
        ?(Hsame 6), ?(Hsame 7), ?(Hsame 8) by lia; reflexivity. }
  now rewrite E.
Qed.

Lemma contribution_answer_is_dropped_demo :
  (forall i, i <> 5 -> demo_operator i = demo_operator_alone i) /\
  typed (demo_operator 5) <> typed (demo_operator_alone 5) /\
  Unnamed_main demo_operator empty_world = Unnamed_main demo_operator_alone empty_world.
Proof.
  assert (H : forall i, i <> 5 -> demo_operator i = demo_operator_alone i).
  { intros i Hi. unfold demo_operator_alone.
    destruct (Nat.eqb_spec i 5) as [E|_]; [contradiction | reflexivity]. }
  split; [exact H|]. split; [discriminate|].
  exact (contribution_answer_is_dropped demo_operator demo_operator_alone empty_world H).
Defined.

Lemma license_choice_single_line (n : nat) :
  single_line (nth n ["MIT/Apache-2.0"; "MIT"; "BSD"; "GPL"] "") = true.
Proof. do 5 (destruct n as [|n]; [reflexivity|]). reflexivity. Qed.

(** A whole run of the second script, when the write succeeds and the
    operator types single lines: README.md holds a document whose title line
    and sections carry what the operator typed at the matching questions
    and the license chosen from the list, the Contributing section reads
    undefined, the success message is printed, and no other file is
    touched. *)
Theorem run_writes_the_operator_answers (op : operator) (w : world)
    (Htyped : forall i, single_line (typed (op i)) = true)
    (Hok : write_fault w = None) :
  exists doc,
    files (Unnamed_main op w) !! "README.md" = Some doc /\
    (forall path, path <> "README.md" ->
                  files (Unnamed_main op w) !! path = files w !! path) /\
    console (Unnamed_main op w) = console w ++ [LogText "Successfully written Readme!"] /\
    head (lines doc) = Some ("# " +:+ typed (op 0)) /\
    section_body "## Description" (lines doc) = [ "    " +:+ typed (op 2); "" ] /\
    section_body "## Installation" (lines doc) = [ "    " +:+ typed (op 3); "" ] /\
    section_body "## Usage" (lines doc) = [ "    " +:+ typed (op 4); "" ] /\
    section_body "## License" (lines doc)
      = [ "    " +:+ nth (cursor (op 1) `mod` 4) ["MIT/Apache-2.0"; "MIT"; "BSD"; "GPL"] ""; "" ] /\
    section_body "## Contributing" (lines doc) = [ "    undefined"; "" ] /\
    section_body "## Tests" (lines doc) = [ "    " +:+ typed (op 6); "" ].
Proof.
  destruct (prompt_fields op) as (A0 & A1 & A2 & A3 & A4 & A5 & A6 & A7 & A8).
  assert (Hf : single_line_fields (prompt Unnamed.questions op) = true).
  { apply forallb_forall. intros x Hx. cbv [params In] in Hx.
    repeat (destruct Hx as [<-|Hx];
            [ first [ rewrite A0 | rewrite A1 | rewrite A2 | rewrite A3 | rewrite A4
                    | rewrite A5 | rewrite A6 | rewrite A7 | rewrite A8 ];
              cbn [to_string];
              first [ apply Htyped | apply license_choice_single_line | reflexivity ] |]).
    contradiction. }
  destruct (Unnamed_document_lines _ Hf) as (doc & Hdoc & Hl).
  exists doc.
  assert (Hrun : Unnamed_main op w
                 = World (<["README.md" := doc]> (files w))
                         (console w ++ [LogText "Successfully written Readme!"])
                         (fs_writes w ++ [("README.md", doc)]) (exitCode w) (unhandled w)
                         (write_fault w)).
  { unfold Unnamed_main, init. rewrite Hdoc. unfold writeFile. rewrite Hok. reflexivity. }
  rewrite Hrun. cbn [files console].
  split; [apply lookup_insert_eq|].
  split; [intros path Hp; now rewrite lookup_insert_ne|].
  split; [reflexivity|].
  rewrite Hl, A0, A1, A2, A3, A4, A5, A6. cbn [to_string].
  repeat (split; [reflexivity|]). reflexivity.
Qed.

Lemma run_writes_the_operator_answers_demo :
  (forall i, single_line (typed (demo_operator i)) = true) /\
  write_fault empty_world = None /\
  exists doc,
    files (Unnamed_main demo_operator empty_world) !! "README.md" = Some doc /\
    head (lines doc) = Some "# Demo" /\
    section_body "## Usage" (lines doc) = [ "    run it"; "" ] /\
    section_body "## License" (lines doc) = [ "    MIT"; "" ].
Proof.
  assert (H : forall i, single_line (typed (demo_operator i)) = true).
  { intros i. do 10 (destruct i as [|i]; [reflexivity|]). reflexivity. }
  split; [exact H|]. split; [reflexivity|].
  destruct (run_writes_the_operator_answers demo_operator empty_world H eq_refl)
    as (doc & Hdoc & _ & _ & Ht & _ & _ & Hu & Hlic & _).
  exists doc. exact (conj Hdoc (conj Ht (conj Hu Hlic))).
Defined.
